(** * Octave: the QUADPACK break-point integrator DQAGP and the
      validator mustBeNonnegative

    A shallow embedding of

    - [libcruft/quadpack/dqagp.f]: the dimensioning wrapper [DQAGP], which
      checks the sizes of the work arrays, slices them, calls the driver
      [DQAGPE] and reports abnormal returns to the error handler [XERROR];
    - the Octave function [mustBeNonnegative];
    - [libgui/src/octave-qobject.cc]: [octave_qapplication::notify] and
      the methods of [base_qobject] and [cli_qobject].

    [DQAGPE] and [XERROR] are called by [DQAGP] but their text is not part
    of the sources at hand.  The wrapper is therefore modelled over an
    arbitrary driver, and its calls are recorded in a trace of events. *)

From Stdlib Require Import ZArith Lia String.
From Stdlib Require Import Floats.SpecFloat.
From stdpp Require Import base list sets sorting strings gmap.

Local Open Scope Z_scope.

(** ** Fortran INTEGER arithmetic *)

Module Fortran.

(** Fortran defines INTEGER expressions by their mathematical value and
    leaves a program undefined when a value does not fit the kind, so
    INTEGER variables are modelled in [Z].  Division of two INTEGERs
    truncates toward zero. *)
Definition idiv (a b : Z) : Z := a `quot` b.

(** On the usual processors the default INTEGER is a 32-bit two's
    complement word; [wrap32] is what such a processor leaves in a
    register after an operation. *)
Definition wrap32 (z : Z) : Z := (z + 2 ^ 31) `mod` 2 ^ 32 - 2 ^ 31.

(** The values that a 32-bit INTEGER holds. *)
Definition int32 (z : Z) : Prop := - 2 ^ 31 <= z < 2 ^ 31.

(** Fortran arrays start at index 1: [store i v a] is [a(i) = v]; an index
    outside the array leaves the model's array as it is. *)
Definition store {T : Type} (i : Z) (v : T) (a : list T) : list T :=
  if 1 <=? i then <[Z.to_nat (i - 1) := v]> a else a.

End Fortran.

(** ** Fortran DOUBLE PRECISION

    The real kind is processor dependent.  The wrapper only needs the
    literal [0.0D+00]; the comparisons, the product and the other
    constants are used by the validation that the driver performs. *)

Class RealKind : Type := {
  real : Type;
  rzero : real;                      (* 0.0D+00 *)
  r50 : real;                        (* 0.5D+02 *)
  rtiny : real;                      (* 0.5D-28 *)
  epmach : real;                     (* D1MACH(4), the largest relative spacing *)
  rmul : real -> real -> real;       (* X*Y *)
  rleb : real -> real -> bool;       (* X.LE.Y *)
  rltb : real -> real -> bool        (* X.LT.Y *)
}.

(** IEEE 754 binary64, the DOUBLE PRECISION of the processors Octave runs
    on and the [double] of its interpreter, with the arithmetic of
    [SpecFloat]. *)
Module Binary64.

Definition prec : Z := 53.
Definition emax : Z := 1024.

Definition of_Z (n : Z) : spec_float := binary_normalize prec emax n 0 false.

Definition pos_zero : spec_float := S754_zero false.
Definition neg_zero : spec_float := S754_zero true.
Definition NaN : spec_float := S754_nan.
Definition Inf : spec_float := S754_infinity false.
Definition neg_Inf : spec_float := S754_infinity true.

(** [2^-52], Octave's [eps] and the [D1MACH(4)] of binary64. *)
Definition eps : spec_float := S754_finite false 4503599627370496 (-104).

(** The double nearest to 0.5e-28, [0x1.fb0f6be506019p-95]. *)
Definition half_em28 : spec_float := S754_finite false 8920298079412249 (-147).

(** The double nearest to 123.456, [0x1.edd2f1a9fbe77p+6]. *)
Definition d123_456 : spec_float := S754_finite false 8687443681197687 (-46).

(** [n / 2^k]: 0.25 is [dyadic 1 2]. *)
Definition dyadic (n : Z) (k : Z) : spec_float :=
  binary_normalize prec emax n (- k) false.

Definition one : spec_float := of_Z 1.
Definition half : spec_float := dyadic 1 1.
Definition quarter : spec_float := dyadic 1 2.
Definition three_quarters : spec_float := dyadic 3 2.

End Binary64.

#[export] Instance binary64 : RealKind := {|
  real := spec_float;
  rzero := Binary64.pos_zero;
  r50 := Binary64.of_Z 50;
  rtiny := Binary64.half_em28;
  epmach := Binary64.eps;
  rmul := SFmul Binary64.prec Binary64.emax;
  rleb := SFleb;
  rltb := SFltb
|}.

(** ** QUADPACK: the wrapper DQAGP *)

Module Quadpack.

(** The start indices (1-based) of the sub-arrays handed to the driver:
    [WORK(1)], [WORK(L1)], [WORK(L2)], [WORK(L3)], [WORK(L4)] and
    [IWORK(1)], [IWORK(L1)], [IWORK(L2)]. *)
Record slices : Type := mk_slices {
  ALIST_at : Z; BLIST_at : Z; RLIST_at : Z; ELIST_at : Z; PTS_at : Z;
  IORD_at : Z; LEVEL_at : Z; NDIN_at : Z
}.

(** What the wrapper does besides computing its output arguments: it
    calls [DQAGPE], and it calls [XERROR (MESSG, NMESSG, NERR, LEVEL)].
    [LEVEL] is the content of the local [LVL], which has no value until
    it is assigned.  Whether [XERROR] prints and returns or stops the
    program is decided by the error library and by [LEVEL]. *)
Inductive event : Type :=
| DQAGPE_called (NPTS2 LIMIT : Z) (sl : slices)
| XERROR_called (MESSG : string) (NMESSG NERR : Z) (LEVEL : option Z).

Definition is_DQAGPE_call (ev : event) : bool :=
  match ev with DQAGPE_called _ _ _ => true | XERROR_called _ _ _ _ => false end.

Definition is_XERROR_call (ev : event) : bool :=
  match ev with DQAGPE_called _ _ _ => false | XERROR_called _ _ _ _ => true end.

(** [LENIW.LT.(3*NPTS2-2).OR.LENW.LT.(LENIW*2-NPTS2).OR.NPTS2.LT.2] *)
Definition dims_invalid (LENIW LENW NPTS2 : Z) : bool :=
  (LENIW <? 3 * NPTS2 - 2) || (LENW <? LENIW * 2 - NPTS2) || (NPTS2 <? 2).

(** [LIMIT = (LENIW-NPTS2)/2] *)
Definition LIMIT_of (LENIW NPTS2 : Z) : Z := Fortran.idiv (LENIW - NPTS2) 2.

(** The same two expressions as a processor with 32-bit INTEGERs
    evaluates them. *)
Definition dims_invalid32 (LENIW LENW NPTS2 : Z) : bool :=
  (LENIW <? Fortran.wrap32 (Fortran.wrap32 (3 * NPTS2) - 2))
  || (LENW <? Fortran.wrap32 (Fortran.wrap32 (LENIW * 2) - NPTS2))
  || (NPTS2 <? 2).

Definition LIMIT32_of (LENIW NPTS2 : Z) : Z :=
  Fortran.idiv (Fortran.wrap32 (LENIW - NPTS2)) 2.

(** [L1 = LIMIT+1], [L2 = LIMIT+L1], [L3 = LIMIT+L2], [L4 = LIMIT+L3] *)
Definition slices_of (LIMIT : Z) : slices :=
  let L1 := LIMIT + 1 in
  let L2 := LIMIT + L1 in
  let L3 := LIMIT + L2 in
  let L4 := LIMIT + L3 in
  mk_slices 1 L1 L2 L3 L4 1 L1 L2.

(** The text of the message: [26HABNORMAL RETURN FROM DQAGP]. *)
Definition MESSG_DQAGP : string := "ABNORMAL RETURN FROM DQAGP".

(** Statement 10 and the one after it:
    [IF(IER.EQ.6) LVL = 1] and
    [IF(IER.GT.0) CALL XERROR(26HABNORMAL RETURN FROM DQAGP,26,IER,LVL)]. *)
Definition error_handler (IER : Z) (LVL : option Z) : list event :=
  let LVL := if IER =? 6 then Some 1 else LVL in
  if IER >? 0 then [XERROR_called MESSG_DQAGP 26 IER LVL] else [].

Section Wrapper.
Context `{RK : RealKind}.

(** [SUBROUTINE F(X,IERR,RESULT)]: the integrand returns an error flag
    and a value. *)
Definition integrand : Type := real -> Z * real.

(** The output arguments of [DQAGPE], and of [DQAGP]. *)
Record outputs : Type := mk_outputs {
  RESULT : real;
  ABSERR : real;
  NEVAL : Z;
  IER : Z;
  LAST : Z;
  WORK_out : list real;
  IWORK_out : list Z
}.

(** [DQAGPE(F,A,B,NPTS2,POINTS,EPSABS,EPSREL,LIMIT,RESULT,ABSERR,NEVAL,
    IER,ALIST,BLIST,RLIST,ELIST,PTS,IORD,LEVEL,NDIN,LAST)]: the eight
    arrays are sub-arrays of [WORK] and [IWORK], given here by the two
    arrays and the start indices. *)
Definition driver : Type :=
  integrand -> real -> real -> Z -> list real -> real -> real -> Z ->
  slices -> list real -> list Z -> outputs.

Variable DQAGPE : driver.

Record run : Type := mk_run {
  out : outputs;
  calls : list event
}.

(** [SUBROUTINE DQAGP(F,A,B,NPTS2,POINTS,EPSABS,EPSREL,RESULT,ABSERR,
    NEVAL,IER,LENIW,LENW,LAST,IWORK,WORK)] *)
Definition DQAGP (F : integrand) (A B : real) (NPTS2 : Z)
    (POINTS : list real) (EPSABS EPSREL : real) (LENIW LENW : Z)
    (IWORK : list Z) (WORK : list real) : run :=
  (* IER = 6, NEVAL = 0, LAST = 0, RESULT = 0.0D+00, ABSERR = 0.0D+00 *)
  let entry := mk_outputs rzero rzero 0 6 0 WORK IWORK in
  if dims_invalid LENIW LENW NPTS2 then
    (* GO TO 10: LVL has not been assigned *)
    mk_run entry (error_handler (IER entry) None)
  else
    let LIMIT := LIMIT_of LENIW NPTS2 in
    let sl := slices_of LIMIT in
    let ret := DQAGPE F A B NPTS2 POINTS EPSABS EPSREL LIMIT sl WORK IWORK in
    (* LVL = 0 *)
    mk_run ret (DQAGPE_called NPTS2 LIMIT sl :: error_handler (IER ret) (Some 0)).

(** A run that tells of its failure in [IER] alone: it makes no call to
    the error handler. *)
Definition reported_by_status_only (r : run) : Prop :=
  Forall (fun ev => is_XERROR_call ev = false) (calls r).

(** The calls to the error handler that a run made. *)
Definition XERROR_calls (r : run) : list event :=
  filter (fun ev => is_XERROR_call ev = true) (calls r).

End Wrapper.

(** ** The driver, as the prologue of DQAGP and the design describe it *)

Section Driver.
Context `{RK : RealKind}.

(** [DMAX1(X,Y)] *)
Definition DMAX1 (x y : real) : real := if rltb x y then y else x.

(** Modelled from the spec: the accuracy check of the driver [DQAGPE],
    whose text is missing.  The request is refused "when epsabs <= 0 and
    epsrel < max(50*machine_epsilon, 0.5e-28)"; the prologue of DQAGP
    says the same of [EPSABS.LE.0] and
    [EPSREL.LT.MAX(50*REL.MACH.ACC.,0.5D-28)]. *)
Definition accuracy_request_invalid (EPSABS EPSREL : real) : bool :=
  rleb EPSABS rzero && rltb EPSREL (DMAX1 (rmul r50 epmach) rtiny).

(** The break points that the user provided: "THE FIRST (NPTS2-2)
    ELEMENTS" of [POINTS] (prologue of DQAGP). *)
Definition break_points (NPTS2 : Z) (POINTS : list real) : list real :=
  take (Z.to_nat (NPTS2 - 2)) POINTS.

(** Modelled from the spec: "breakpoints lie within [a,b]", a check of
    the missing driver [DQAGPE]. *)
Definition within_range (A B p : real) : bool := rleb A p && rleb p B.

(** Modelled from the spec: "Breakpoints are always treated as sorted
    ascending"; the sorting routine is part of the missing [DQAGPE].  Any
    ascending rearrangement will do; this one inserts each point before
    the first one that is not smaller. *)
Fixpoint insert_ascending (x : real) (l : list real) : list real :=
  match l with
  | [] => [x]
  | y :: l' => if rleb x y then x :: y :: l' else y :: insert_ascending x l'
  end.

(** Modelled from the spec: the ascending sort of the missing [DQAGPE],
    by repeated insertion. *)
Definition sort_ascending (l : list real) : list real :=
  foldr insert_ascending [] l.

(** Modelled from the spec: the subdivision and extrapolation loop of
    the missing [DQAGPE], which starts from "one record per initial
    segment (sorted break points define segment boundaries)".  The loop
    is not described closely enough to be written down, so it is a
    parameter that receives the sorted break points. *)
Definition engine : Type :=
  integrand -> real -> real -> list real -> real -> real -> Z ->
  slices -> list real -> list Z -> outputs.

(** Modelled from the spec: how the missing [DQAGPE] leaves the output
    arguments when [NPTS2] is invalid, "zero result/error/neval/last";
    the arrays are left alone. *)
Definition invalid_count (WORK : list real) (IWORK : list Z) : outputs :=
  mk_outputs rzero rzero 0 6 0 WORK IWORK.

(** Modelled from the spec: how the missing [DQAGPE] leaves the output
    arguments on other invalid input, "zero result/error/neval/last".
    The prologue of DQAGP adds, under [IER = 6]: "EXEPT WHEN LENIW OR
    LENW OR NPTS2 IS INVALID, IWORK(1), IWORK(LIMIT+1), WORK(LIMIT*2+1)
    AND WORK(LIMIT*3+1) ARE SET TO ZERO.  WORK(1) IS SET TO A AND
    WORK(LIMIT+1) TO B". *)
Definition invalid_input (A B : real) (sl : slices)
    (WORK : list real) (IWORK : list Z) : outputs :=
  let WORK := Fortran.store (ALIST_at sl) A WORK in
  let WORK := Fortran.store (BLIST_at sl) B WORK in
  let WORK := Fortran.store (RLIST_at sl) rzero WORK in
  let WORK := Fortran.store (ELIST_at sl) rzero WORK in
  let IWORK := Fortran.store (IORD_at sl) 0 IWORK in
  let IWORK := Fortran.store (LEVEL_at sl) 0 IWORK in
  mk_outputs rzero rzero 0 6 0 WORK IWORK.

(** Modelled from the spec: the driver [DQAGPE], whose text is missing.
    It refuses invalid input with [IER = 6] ("num_breakpoints >= 2;
    breakpoints lie within [a,b]", and the accuracy request), "without
    invoking" the integration; otherwise it sorts the break points and
    runs the integration on the sorted sequence. *)
Definition DQAGPE_spec (core : engine) : driver :=
  fun F A B NPTS2 POINTS EPSABS EPSREL LIMIT sl WORK IWORK =>
    let pts := break_points NPTS2 POINTS in
    if NPTS2 <? 2 then invalid_count WORK IWORK
    else if negb (forallb (within_range A B) pts)
            || accuracy_request_invalid EPSABS EPSREL
    then invalid_input A B sl WORK IWORK
    else core F A B (sort_ascending pts) EPSABS EPSREL LIMIT sl WORK IWORK.

(** [X.LE.Y] as a relation, and what it means for it to order the
    elements of a list: any two are comparable, and it is transitive and
    antisymmetric on them.  Real numbers are so ordered; among doubles a
    NaN, or a zero of each sign, is not. *)
Definition rle (x y : real) : Prop := rleb x y = true.

Record ordered_on (l : list real) : Prop := mk_ordered_on {
  ord_total : forall x y, x ∈ l -> y ∈ l -> rle x y \/ rle y x;
  ord_trans : forall x y z, x ∈ l -> y ∈ l -> z ∈ l ->
              rle x y -> rle y z -> rle x z;
  ord_antisym : forall x y, x ∈ l -> y ∈ l -> rle x y -> rle y x -> x = y
}.

(** A stand-in for a driver that has used up its [LIMIT] subintervals:
    it returns the estimates it is given with [IER = 1]. *)
Definition exhausted_driver (estimate error : real) (evaluations : Z) : driver :=
  fun _ _ _ _ _ _ _ LIMIT _ WORK IWORK =>
    mk_outputs estimate error evaluations 1 LIMIT WORK IWORK.

(** A stand-in for the integration, to run the modelled driver with: it
    only tells where its segments lie.  [RESULT] is the first of the
    sorted break points ([A] when there is none) and [LAST] the number of
    segments. *)
Definition first_point_engine : engine :=
  fun _ A _ pts _ _ _ _ WORK IWORK =>
    mk_outputs (hd A pts) rzero 0 0 (Z.of_nat (length pts) + 1) WORK IWORK.

(** The integrand [f(x) = v], which never fails. *)
Definition constant_integrand (v : real) : integrand := fun _ => (0, v).

End Driver.

(** Sample calls on doubles, with the integrand [f(x) = 1] on (0,1). *)
Definition unit_integrand : integrand (RK:=binary64) :=
  constant_integrand (RK:=binary64) Binary64.one.

Definition sample_call (DQAGPE : driver (RK:=binary64)) (NPTS2 : Z)
    (POINTS : list spec_float) (EPSABS EPSREL : spec_float)
    (LENIW LENW : Z) : run (RK:=binary64) :=
  DQAGP DQAGPE unit_integrand Binary64.pos_zero Binary64.one NPTS2 POINTS
        EPSABS EPSREL LENIW LENW
        (replicate (Z.to_nat LENIW) 0)
        (replicate (Z.to_nat LENW) Binary64.pos_zero).

(** [NPTS2 = 1]: too few points. *)
Definition call_with_one_point : run (RK:=binary64) :=
  sample_call (DQAGPE_spec first_point_engine) 1 [Binary64.pos_zero]
              Binary64.eps Binary64.eps 10 20.

(** The break points 3/4, 1/4, 1/2, and the same as 1/2, 3/4, 1/4; the
    two last elements of [POINTS] are not break points. *)
Definition points_a : list spec_float :=
  [Binary64.three_quarters; Binary64.quarter; Binary64.half;
   Binary64.pos_zero; Binary64.pos_zero].


Definition call_with_three_break_points (POINTS : list spec_float)
    : run (RK:=binary64) :=
  sample_call (DQAGPE_spec first_point_engine) 5 POINTS
              Binary64.eps (Binary64.dyadic 1 20) 13 21.

(** [EPSABS = 0] and [EPSREL = 2^-52], below [50 * 2^-52]. *)
Definition call_with_no_tolerance : run (RK:=binary64) :=
  sample_call (DQAGPE_spec first_point_engine) 2
              [Binary64.pos_zero; Binary64.pos_zero]
              Binary64.pos_zero Binary64.eps 4 6.

(** A driver that ran out of subintervals. *)
Definition call_that_exhausts_limit : run (RK:=binary64) :=
  sample_call (exhausted_driver (RK:=binary64) Binary64.one Binary64.quarter 105)
              2 [Binary64.pos_zero; Binary64.pos_zero]
              Binary64.eps Binary64.eps 4 6.

End Quadpack.

(** ** Octave: mustBeNonnegative *)

Module Octave.

(** A real array: its dimensions and its elements in column-major order. *)
Record array (T : Type) : Type := mk_array {
  dims : list nat;
  elems : list T
}.
Arguments mk_array {T} _ _.
Arguments dims {T} _.
Arguments elems {T} _.

Definition scalar {T : Type} (v : T) : array T := mk_array [1%nat; 1%nat] [v].

Definition row {T : Type} (l : list T) : array T :=
  mk_array [1%nat; length l] l.

(** [v >= w] on doubles: false when either is a NaN. *)
Definition ge (v w : spec_float) : bool := SFleb w v.

(** The test of one element, [v >= 0]. *)
Definition nonneg (v : spec_float) : bool := ge v Binary64.pos_zero.

(** [x >= 0], element by element. *)
Definition ge_zero (x : array spec_float) : array bool :=
  mk_array (dims x) (map nonneg (elems x)).

(** [tf(:)]: all elements as one column. *)
Definition colon {T : Type} (x : array T) : array T :=
  mk_array [length (elems x); 1%nat] (elems x).

(** [all (tf)] for a column: true when no element is false, also for
    the empty column. *)
Definition all (tf : array bool) : bool := forallb id (elems tf).

(** [find (! tf)]: the 1-based indices of the false elements. *)
Fixpoint find_not (i : nat) (tf : list bool) : list nat :=
  match tf with
  | [] => []
  | b :: tf' => if b then find_not (S i) tf' else i :: find_not (S i) tf'
  end.

(** [x(i)] fails for an index out of bound. *)
Definition element {T : Type} (x : array T) (i : nat) : option T :=
  match i with
  | O => None
  | S j => elems x !! j
  end.

(** [x(ix)] *)
Definition index {T : Type} (x : array T) (ix : list nat) : option (list T) :=
  mapM (element x) ix.

(** What [error] is called with.  The message is built by [sprintf] and
    [mat2str] from the label, the number of offending elements and their
    values, or their indexes when the values cannot be had; the parts
    are kept apart here.  A call without argument fails on the first use
    of [x], a call with more than one is refused by the interpreter. *)
Inductive detail : Type :=
| values (bad : list spec_float)
| indexes (ix_bad : list nat).

Inductive exception : Type :=
| not_nonnegative (label : string) (count : nat) (d : detail)
| undefined_x
| too_many_inputs.

Inductive outcome : Type :=
| returned
| raised (e : exception).

(** [function mustBeNonnegative (x)]; [name] is what [inputname (1)]
    returns. *)
Definition mustBeNonnegative (name : string) (x : array spec_float) : outcome :=
  let tf := ge_zero x in
  let tf := colon tf in
  if negb (all tf) then
    let label := name in
    let label := if String.eqb label EmptyString then "input"%string else label in
    let ix_bad := find_not 1 (elems tf) in
    match index x ix_bad with
    | Some bad => raised (not_nonnegative label (length ix_bad) (values bad))
    | None => raised (not_nonnegative label (length ix_bad) (indexes ix_bad))
    end
  else returned.

Definition call_mustBeNonnegative (name : string)
    (args : list (array spec_float)) : outcome :=
  match args with
  | [] => raised undefined_x
  | [x] => mustBeNonnegative name x
  | _ => raised too_many_inputs
  end.

Definition raises (o : outcome) : Prop :=
  match o with returned => False | raised _ => True end.

End Octave.

(** ** QUADPACK: the layout of the work arrays *)

Module Layout.
Import Quadpack.


Definition IWORK_layout (sl : slices) (LIMIT NPTS2 : Z) : list (Z * Z) :=
  [(IORD_at sl, LIMIT); (LEVEL_at sl, LIMIT); (NDIN_at sl, NPTS2)].

(** Sub-arrays that lie one after the other from index [first] on, none
    empty, the last one ending within an array of [len] elements. *)
Fixpoint packed_from (first : Z) (layout : list (Z * Z)) (len : Z) : Prop :=
  match layout with
  | [] => first - 1 <= len
  | (start, n) :: rest => start = first /\ 0 < n /\ packed_from (start + n) rest len
  end.

(** [L1 = LIMIT+1], [L2 = LIMIT+L1], [L3 = LIMIT+L2], [L4 = LIMIT+L3] as
    a processor with 32-bit INTEGERs evaluates them. *)
Definition slices32_of (LIMIT : Z) : slices :=
  let L1 := Fortran.wrap32 (LIMIT + 1) in
  let L2 := Fortran.wrap32 (LIMIT + L1) in
  let L3 := Fortran.wrap32 (LIMIT + L2) in
  let L4 := Fortran.wrap32 (LIMIT + L3) in
  mk_slices 1 L1 L2 L3 L4 1 L1 L2.

End Layout.

(** ** The GUI object: octave-qobject.cc

    The methods of [octave_qapplication], [base_qobject] and [cli_qobject]
    act on Qt and on other classes of Octave.  Their calls are recorded
    in a trace; the one data member that the methods test and change,
    [m_translators_installed], is the state. *)

Module Gui.

(** [m_qt_tr], [m_gui_tr], [m_qsci_tr] *)
Inductive translator : Type := m_qt_tr | m_gui_tr | m_qsci_tr.

(** What a C++ call may throw: Octave's [execution_exception], or
    something else. *)
Inductive exception : Type :=
| execution_exception (ee : string)
| other_exception (what : string).

Inductive outcome (A : Type) : Type :=
| returns (a : A)
| throws (e : exception).
Arguments returns {A} _.
Arguments throws {A} _.

(** [fcn_callback], a [std::function<void (void)>]. *)
Definition fcn_callback : Type := unit -> outcome unit.

(** The conditional compilation of the file. *)
Record build : Type := mk_build {
  Q_OS_MAC : bool;
  Q_OS_WIN32 : bool;
  HAVE_QT4 : bool;
  HAVE_QINSTALLMESSAGEHANDLER : bool
}.

Inductive call : Type :=
| qInstallMessageHandler
| qInstallMsgHandler
| setCodecForLocale (codec : string)
| setCodecForCStrings (codec : string)
| setApplicationName (name : string)
| setApplicationVersion (version : string)
| qRegisterMetaType (name : string)
| disable_app_nap
| setLayoutDirection_LeftToRight
| connect (sender signal receiver slot : string)
| resource_manager_reload_settings
| resource_manager_config_translators (qt qsci gui : translator)
| installTranslator (t : translator)
| setQuitOnLastWindowClosed (b : bool)
| QTimer_singleShot (msec : Z) (receiver slot : string)
| moveToThread (object thread : string)
| QThread_start (thread : string)
| QThread_quit (thread : string)
| fprintf_stderr (text : string)
| qApp_exit (exit_status : Z)
| interpreter_qobj_interpreter_event (fcn : fcn_callback)
| interpreter_qobj_confirm_shutdown (closenow : bool).

Definition is_installTranslator (c : call) : bool :=
  match c with installTranslator _ => true | _ => false end.

(** The calls of [installTranslator] in a trace. *)
Definition installs (t : list call) : list call :=
  filter (fun c => is_installTranslator c = true) t.

(** [octave_qapplication::notify]: [QApplication_notify] is the
    [QApplication::notify] of Qt, which delivers the event and may let
    an exception of a handler through.  The result is what [notify]
    returns or throws, with the callbacks it emits as
    [interpreter_event] signals. *)
Definition notify {QObject QEvent : Type}
    (QApplication_notify : QObject -> QEvent -> outcome bool)
    (receiver : QObject) (ev : QEvent) : outcome bool * list fcn_callback :=
  match QApplication_notify receiver ev with
  | returns b => (returns b, [])
  | throws (execution_exception ee) =>
      (* emit interpreter_event ([ee] (void) { throw ee; }); return false; *)
      (returns false, [fun _ => throws (execution_exception ee)])
  | throws e => (throws e, [])
  end.

(** The object: its mutable member. *)
Record base_qobject : Type := mk_base_qobject {
  m_translators_installed : bool
}.

(** A method changes the object and makes calls. *)
Definition action : Type := base_qobject -> base_qobject * list call.

Definition skip : action := fun s => (s, []).

Definition emit (c : call) : action := fun s => (s, [c]).

Definition seq (a b : action) : action :=
  fun s => let '(s1, t1) := a s in
           let '(s2, t2) := b s1 in
           (s2, t1 ++ t2).

Definition when (b : bool) (a : action) : action := if b then a else skip.

(** The statements of a body, one after the other. *)
Definition block (body : list action) : action := foldr seq skip body.

Section Methods.
Variable cfg : build.

(** [OCTAVE_VERSION] *)
Variable OCTAVE_VERSION : string.

(** The body of [base_qobject::base_qobject]; [show_gui_msgs] is the
    value of the environment variable [OCTAVE_SHOW_GUI_MESSAGES].  The
    member initializers set [m_translators_installed (false)]. *)
Definition base_qobject_ctor (show_gui_msgs : string) : base_qobject * list call :=
  block
    [when (String.eqb show_gui_msgs EmptyString)
       (if HAVE_QINSTALLMESSAGEHANDLER cfg
        then emit qInstallMessageHandler else emit qInstallMsgHandler);
     when (negb (Q_OS_WIN32 cfg)) (emit (setCodecForLocale "UTF-8"));
     when (HAVE_QT4 cfg) (emit (setCodecForCStrings "UTF-8"));
     emit (setApplicationName "GNU Octave");
     emit (setApplicationVersion OCTAVE_VERSION);
     emit (qRegisterMetaType "octave_value_list");
     when (Q_OS_MAC cfg) (emit disable_app_nap);
     emit setLayoutDirection_LeftToRight;
     emit (connect "m_interpreter_qobj" "octave_finished_signal (int)"
                   "this" "handle_octave_finished (int)");
     emit (connect "m_main_thread" "finished (void)"
                   "m_main_thread" "deleteLater (void)");
     emit (connect "m_qapplication" "interpreter_event (const fcn_callback&)"
                   "this" "interpreter_event (const fcn_callback&)");
     emit (connect "m_qapplication" "interpreter_event (const meth_callback&)"
                   "this" "interpreter_event (const meth_callback&)")]
    (mk_base_qobject false).

(** [base_qobject::config_translators] *)
Definition config_translators : action :=
  fun s =>
    if m_translators_installed s then (s, [])
    else
      block
        [emit (resource_manager_config_translators m_qt_tr m_qsci_tr m_gui_tr);
         emit (installTranslator m_qt_tr);
         emit (installTranslator m_gui_tr);
         emit (installTranslator m_qsci_tr);
         fun _ => (mk_base_qobject true, [])] s.

(** [base_qobject::start_main_thread] *)
Definition start_main_thread : action :=
  block
    [emit (QTimer_singleShot 0 "m_interpreter_qobj" "execute (void)");
     emit (moveToThread "m_interpreter_qobj" "m_main_thread");
     emit (QThread_start "m_main_thread")].

(** [base_qobject::handle_octave_finished] *)
Definition handle_octave_finished (exit_status : Z) : action :=
  block
    [when (Q_OS_MAC cfg) (emit (fprintf_stderr (String (Ascii.ascii_of_nat 10) EmptyString)));
     emit (QThread_quit "m_main_thread");
     emit (qApp_exit exit_status)].

(** [base_qobject::interpreter_event (const fcn_callback&)] *)
Definition interpreter_event (fcn : fcn_callback) : action :=
  emit (interpreter_qobj_interpreter_event fcn).

(** [base_qobject::confirm_shutdown_octave] *)
Definition confirm_shutdown_octave : action :=
  emit (interpreter_qobj_confirm_shutdown true).

(** [cli_qobject::cli_qobject] *)
Definition cli_qobject_ctor (show_gui_msgs : string) : base_qobject * list call :=
  let '(s, t) := base_qobject_ctor show_gui_msgs in
  let '(s', t') :=
    block
      [emit resource_manager_reload_settings;
       config_translators;
       emit (setQuitOnLastWindowClosed false);
       start_main_thread] s in
  (s', t ++ t').

(** The slots and methods that can be invoked on the object once it is
    constructed. *)
Inductive method : Type :=
| call_config_translators
| call_start_main_thread
| call_handle_octave_finished (exit_status : Z)
| call_interpreter_event (fcn : fcn_callback)
| call_confirm_shutdown_octave.

Definition invoke (m : method) : action :=
  match m with
  | call_config_translators => config_translators
  | call_start_main_thread => start_main_thread
  | call_handle_octave_finished exit_status => handle_octave_finished exit_status
  | call_interpreter_event fcn => interpreter_event fcn
  | call_confirm_shutdown_octave => confirm_shutdown_octave
  end.

Definition invoke_all (ms : list method) : action :=
  block (map invoke ms).

Definition is_config_translators (m : method) : bool :=
  match m with call_config_translators => true | _ => false end.

End Methods.

(** [base_qobject::copy_image_to_clipboard].  The files are a map from
    names to contents and the clipboard holds an image or nothing.
    [decode] is what [QImage (file)] makes of the content of a file,
    [None] being the null image, also for a file that is not there;
    [removable] tells whether [QFile::remove] succeeds. *)
Section Clipboard.
Context {image data : Type}.
Variable decode : data -> option image.
Variable removable : string -> bool.

Record desktop : Type := mk_desktop {
  files : gmap string data;
  clipboard : option image
}.

Definition QImage_of (w : desktop) (file : string) : option image :=
  files w !! file ≫= decode.

Definition QFile_remove (file : string) (w : desktop) : desktop :=
  if removable file
  then mk_desktop (delete file (files w)) (clipboard w)
  else w.

Definition copy_image_to_clipboard (file : string) (remove_file : bool)
    (w : desktop) : desktop :=
  match QImage_of w file with
  | None => w
  | Some img =>
      let w := mk_desktop (files w) (Some img) in
      if remove_file then QFile_remove file w else w
  end.

End Clipboard.

(** A desktop to try the method on: a file that holds an image (decoded
    here to its size) and an empty one that does not. *)
Definition sample_decode (content : string) : option nat :=
  if String.eqb content EmptyString then None else Some (String.length content).

Definition sample_desktop : desktop (image:=nat) (data:=string) :=
  mk_desktop (<["plot.png" := "PNG-DATA"]> (<["empty.png" := ""]> ∅)) None.

(** An event whose delivery throws Octave's exception. *)
Definition failing_delivery (receiver ev : unit) : outcome bool :=
  throws (execution_exception "error: x undefined").

End Gui.

(** ** DQAGP with 32-bit INTEGERs

    The wrapper as a processor runs it whose default INTEGER is a 32-bit
    two's complement word: every INTEGER operation of the text is
    followed by the wrap-around of its result. *)

Module Quadpack32.
Import Quadpack Layout.

Section Wrapper32.
Context `{RK : RealKind}.
Variable DQAGPE : driver.

(** [SUBROUTINE DQAGP(F,A,B,NPTS2,POINTS,EPSABS,EPSREL,RESULT,ABSERR,
    NEVAL,IER,LENIW,LENW,LAST,IWORK,WORK)], for [LENIW], [LENW] and
    [NPTS2] that are 32-bit values. *)
Definition DQAGP32 (F : integrand) (A B : real) (NPTS2 : Z)
    (POINTS : list real) (EPSABS EPSREL : real) (LENIW LENW : Z)
    (IWORK : list Z) (WORK : list real) : run :=
  (* IER = 6, NEVAL = 0, LAST = 0, RESULT = 0.0D+00, ABSERR = 0.0D+00 *)
  let entry := mk_outputs rzero rzero 0 6 0 WORK IWORK in
  if dims_invalid32 LENIW LENW NPTS2 then
    (* GO TO 10: LVL has not been assigned *)
    mk_run entry (error_handler (IER entry) None)
  else
    let LIMIT := LIMIT32_of LENIW NPTS2 in
    let sl := slices32_of LIMIT in
    let ret := DQAGPE F A B NPTS2 POINTS EPSABS EPSREL LIMIT sl WORK IWORK in
    (* LVL = 0 *)
    mk_run ret (DQAGPE_called NPTS2 LIMIT sl :: error_handler (IER ret) (Some 0)).

End Wrapper32.

End Quadpack32.

(** ** The order of doubles *)

Module Doubles.
Import Quadpack.







End Doubles.

(** * Properties *)

Import Quadpack.

(** ** The dimension check *)

Section Dimensions.
Implicit Types LENIW LENW : Z.

Lemma dims_invalid_true LENIW LENW (NPTS2 : Z) :
  dims_invalid LENIW LENW NPTS2 = true <->
  LENIW < 3 * NPTS2 - 2 \/ LENW < 2 * LENIW - NPTS2 \/ NPTS2 < 2.
Proof. unfold dims_invalid. rewrite !orb_true_iff, !Z.ltb_lt. lia. Qed.

Lemma dims_invalid_false LENIW LENW (NPTS2 : Z) :
  dims_invalid LENIW LENW NPTS2 = false <->
  3 * NPTS2 - 2 <= LENIW /\ 2 * LENIW - NPTS2 <= LENW /\ 2 <= NPTS2.
Proof. unfold dims_invalid. rewrite !orb_false_iff, !Z.ltb_ge. lia. Qed.

Lemma LIMIT_of_floor LENIW (NPTS2 : Z) :
  NPTS2 <= LENIW -> LIMIT_of LENIW NPTS2 = (LENIW - NPTS2) `div` 2.
Proof.
  intros. unfold LIMIT_of, Fortran.idiv. apply Z.quot_div_nonneg; lia.
Qed.

Lemma wrap32_small z : - 2 ^ 31 <= z < 2 ^ 31 -> Fortran.wrap32 z = z.
Proof.
  intros. unfold Fortran.wrap32. rewrite Z.mod_small; lia.
Qed.

(** Where no intermediate value leaves the 32-bit range, the 32-bit
    evaluation of the check and of [LIMIT] is the one in [Z]; elsewhere
    Fortran gives the expressions no value. *)
Lemma dims_invalid32_agrees LENIW LENW (NPTS2 : Z) :
  Fortran.int32 (3 * NPTS2) -> Fortran.int32 (3 * NPTS2 - 2) ->
  Fortran.int32 (LENIW * 2) -> Fortran.int32 (LENIW * 2 - NPTS2) ->
  Fortran.int32 (LENIW - NPTS2) ->
  dims_invalid32 LENIW LENW NPTS2 = dims_invalid LENIW LENW NPTS2
  /\ LIMIT32_of LENIW NPTS2 = LIMIT_of LENIW NPTS2.
Proof.
  unfold Fortran.int32. intros.
  unfold dims_invalid32, dims_invalid, LIMIT32_of, LIMIT_of.
  rewrite !wrap32_small by (rewrite ?wrap32_small; lia). done.
Qed.

End Dimensions.

(** ** The wrapper over an arbitrary driver *)

Section Wrapper_facts.
Context `{RK : RealKind} (DQAGPE : driver).
Implicit Types (F : integrand) (A B EPSABS EPSREL : real) (POINTS WORK : list real).
Implicit Types (LENIW LENW : Z) (IWORK : list Z).

Lemma DQAGP_invalid F A B (NPTS2 : Z) POINTS EPSABS EPSREL LENIW LENW IWORK WORK :
  dims_invalid LENIW LENW NPTS2 = true ->
  DQAGP DQAGPE F A B NPTS2 POINTS EPSABS EPSREL LENIW LENW IWORK WORK
  = mk_run (mk_outputs rzero rzero 0 6 0 WORK IWORK)
           [XERROR_called MESSG_DQAGP 26 6 (Some 1)].
Proof. intros E. unfold DQAGP. rewrite E. reflexivity. Qed.

Lemma DQAGP_valid F A B (NPTS2 : Z) POINTS EPSABS EPSREL LENIW LENW IWORK WORK :
  dims_invalid LENIW LENW NPTS2 = false ->
  let LIMIT := LIMIT_of LENIW NPTS2 in
  let ret := DQAGPE F A B NPTS2 POINTS EPSABS EPSREL LIMIT (slices_of LIMIT)
                    WORK IWORK in
  DQAGP DQAGPE F A B NPTS2 POINTS EPSABS EPSREL LENIW LENW IWORK WORK
  = mk_run ret (DQAGPE_called NPTS2 LIMIT (slices_of LIMIT)
                :: error_handler (IER ret) (Some 0)).
Proof. intros E. unfold DQAGP. rewrite E. reflexivity. Qed.

(** A status other than 6 comes from the driver, and so do the other
    outputs. *)
Lemma DQAGP_outputs_of_driver
    F A B (NPTS2 : Z) POINTS EPSABS EPSREL LENIW LENW IWORK WORK :
  let r := DQAGP DQAGPE F A B NPTS2 POINTS EPSABS EPSREL LENIW LENW IWORK WORK in
  let LIMIT := LIMIT_of LENIW NPTS2 in
  IER (out r) <> 6 ->
  dims_invalid LENIW LENW NPTS2 = false
  /\ out r = DQAGPE F A B NPTS2 POINTS EPSABS EPSREL LIMIT (slices_of LIMIT)
                     WORK IWORK.
Proof.
  intros r LIMIT. subst r LIMIT. unfold DQAGP.
  destruct (dims_invalid LENIW LENW NPTS2); [done|]. done.
Qed.

(** With the INTEGER expressions at their mathematical values: when
    [LENIW < 3*NPTS2-2], or [LENW < 2*LENIW-NPTS2], or [NPTS2 < 2], DQAGP
    returns [IER = 6] with [RESULT], [ABSERR], [NEVAL] and [LAST] zero,
    and it does not call DQAGPE: its only call is the one to the error
    handler. *)
Lemma DQAGP_bad_dimensions_rejected
    F A B (NPTS2 : Z) POINTS EPSABS EPSREL LENIW LENW IWORK WORK :
  LENIW < 3 * NPTS2 - 2 \/ LENW < 2 * LENIW - NPTS2 \/ NPTS2 < 2 ->
  let r := DQAGP DQAGPE F A B NPTS2 POINTS EPSABS EPSREL LENIW LENW IWORK WORK in
  IER (out r) = 6 /\ RESULT (out r) = rzero /\ ABSERR (out r) = rzero
  /\ NEVAL (out r) = 0 /\ LAST (out r) = 0
  /\ Forall (fun ev => is_DQAGPE_call ev = false) (calls r).
Proof.
  intros Hbad r. subst r.
  rewrite DQAGP_invalid by (by apply dims_invalid_true). simpl.
  repeat split. repeat constructor.
Qed.

(** C2: a call that passes the dimension check calls the driver once,
    with [LIMIT = (LENIW-NPTS2)/2], the integer quotient (rounded down,
    which for these values is also Fortran's truncation), and returns
    what the driver returns for that [LIMIT]. *)
Theorem C2_limit_is_half_of_spare_iwork
    F A B (NPTS2 : Z) POINTS EPSABS EPSREL LENIW LENW IWORK WORK :
  3 * NPTS2 - 2 <= LENIW -> 2 * LENIW - NPTS2 <= LENW -> 2 <= NPTS2 ->
  let r := DQAGP DQAGPE F A B NPTS2 POINTS EPSABS EPSREL LENIW LENW IWORK WORK in
  let LIMIT := (LENIW - NPTS2) `div` 2 in
  LIMIT_of LENIW NPTS2 = LIMIT
  /\ filter (fun ev => is_DQAGPE_call ev = true) (calls r)
     = [DQAGPE_called NPTS2 LIMIT (slices_of LIMIT)]
  /\ out r = DQAGPE F A B NPTS2 POINTS EPSABS EPSREL LIMIT (slices_of LIMIT)
                    WORK IWORK.
Proof.
  intros H1 H2 H3 r LIMIT. subst r LIMIT.
  rewrite DQAGP_valid by (apply dims_invalid_false; lia).
  rewrite LIMIT_of_floor by lia. simpl. split; [done|]. split; [|done].
  rewrite filter_cons_True by done. f_equal.
  unfold error_handler. destruct (_ >? 0); reflexivity.
Qed.

(** C3: a call with [NPTS2 < 2] is rejected with [IER = 6] and zero
    outputs without calling the driver; for [NPTS2 >= 2] the test
    [NPTS2.LT.2] does not reject, so the check is decided by the two
    other tests, and when these pass too the driver is called and its
    outputs are returned. *)
Theorem C3_fewer_than_two_points_rejected
    F A B (NPTS2 : Z) POINTS EPSABS EPSREL LENIW LENW IWORK WORK :
  let r := DQAGP DQAGPE F A B NPTS2 POINTS EPSABS EPSREL LENIW LENW IWORK WORK in
  let LIMIT := LIMIT_of LENIW NPTS2 in
  (NPTS2 < 2 ->
     IER (out r) = 6 /\ RESULT (out r) = rzero /\ ABSERR (out r) = rzero
     /\ NEVAL (out r) = 0 /\ LAST (out r) = 0
     /\ Forall (fun ev => is_DQAGPE_call ev = false) (calls r))
  /\ (2 <= NPTS2 ->
     dims_invalid LENIW LENW NPTS2
       = (LENIW <? 3 * NPTS2 - 2) || (LENW <? LENIW * 2 - NPTS2)
     /\ (3 * NPTS2 - 2 <= LENIW -> 2 * LENIW - NPTS2 <= LENW ->
         head (calls r) = Some (DQAGPE_called NPTS2 LIMIT (slices_of LIMIT))
         /\ out r = DQAGPE F A B NPTS2 POINTS EPSABS EPSREL LIMIT
                           (slices_of LIMIT) WORK IWORK)).
Proof.
  intros r LIMIT. subst r LIMIT. split.
  - intros Hlt. rewrite DQAGP_invalid by (apply dims_invalid_true; lia).
    simpl. repeat split. repeat constructor.
  - intros Hge. split.
    + unfold dims_invalid. replace (NPTS2 <? 2) with false by lia.
      by rewrite orb_false_r.
    + intros H1 H2. rewrite DQAGP_valid by (apply dims_invalid_false; lia).
      done.
Qed.

(** C8, as the code has it: a return with [IER > 0] is reported in [IER]
    and, besides, by one call of the error handler, with the message
    "ABNORMAL RETURN FROM DQAGP", the error number [IER] and the level 1
    when [IER = 6] and 0 otherwise; a return with [IER <= 0] makes no
    such call.  When the dimension check passes, the outputs, [RESULT]
    and [ABSERR] among them, are the ones the driver produced. *)
Theorem C8_failures_go_to_status_and_error_handler
    F A B (NPTS2 : Z) POINTS EPSABS EPSREL LENIW LENW IWORK WORK :
  let r := DQAGP DQAGPE F A B NPTS2 POINTS EPSABS EPSREL LENIW LENW IWORK WORK in
  let LIMIT := LIMIT_of LENIW NPTS2 in
  XERROR_calls r
    = (if IER (out r) >? 0
       then [XERROR_called MESSG_DQAGP 26 (IER (out r))
               (Some (if IER (out r) =? 6 then 1 else 0))]
       else [])
  /\ (reported_by_status_only r <-> IER (out r) <= 0)
  /\ (dims_invalid LENIW LENW NPTS2 = false ->
      out r = DQAGPE F A B NPTS2 POINTS EPSABS EPSREL LIMIT (slices_of LIMIT)
                     WORK IWORK).
Proof.
  intros r LIMIT. subst r LIMIT. unfold XERROR_calls, reported_by_status_only.
  destruct (dims_invalid LENIW LENW NPTS2) eqn:E.
  - rewrite DQAGP_invalid by done. simpl. split; [done|]. split; [|done].
    split; [|lia]. intros H. by inversion H.
  - rewrite DQAGP_valid by done. simpl.
    set (ret := DQAGPE _ _ _ _ _ _ _ _ _ _ _).
    unfold error_handler. rewrite filter_cons_False by done.
    destruct (IER ret >? 0) eqn:Hpos.
    + split; [|split; [|done]].
      * rewrite filter_cons_True by done. by destruct (IER ret =? 6).
      * split; [|lia]. intros H. inversion H as [|? ? _ H']. by inversion H'.
    + split; [done|]. split; [|done]. split; [lia|]. intros _.
      repeat constructor.
Qed.

End Wrapper_facts.

(** C9: when [LENIW >= 3*NPTS2-2] and [NPTS2 >= 2], [LIMIT], the integer
    quotient [(LENIW-NPTS2)/2], is at least [NPTS2-1], the number of
    initial segments. *)
Theorem C9_limit_covers_initial_segments (LENIW NPTS2 : Z) :
  3 * NPTS2 - 2 <= LENIW -> 2 <= NPTS2 ->
  NPTS2 - 1 <= LIMIT_of LENIW NPTS2.
Proof.
  intros H1 H2. rewrite LIMIT_of_floor by lia.
  apply Z.div_le_lower_bound; lia.
Qed.

(** ** The modelled driver: sorting *)

Section Sorting.
Context `{RK : RealKind}.
Implicit Types (x y : real) (l : list real).

Lemma ordered_on_subseteq l l' : l' ⊆ l -> ordered_on l -> ordered_on l'.
Proof.
  intros Hsub [Htot Htrans Hanti]. split.
  - intros x y Hx Hy. apply Htot; by apply Hsub.
  - intros x y z Hx Hy Hz. apply Htrans; by apply Hsub.
  - intros x y Hx Hy. apply Hanti; by apply Hsub.
Qed.

Lemma ordered_on_Permutation l l' : l ≡ₚ l' -> ordered_on l -> ordered_on l'.
Proof.
  intros Hp. apply ordered_on_subseteq. intros x Hx. by rewrite Hp.
Qed.

Lemma insert_ascending_Permutation x l : insert_ascending x l ≡ₚ x :: l.
Proof.
  induction l as [|y l IH]; simpl; [done|].
  destruct (rleb x y); [done|]. rewrite IH. apply Permutation_swap.
Qed.

Lemma sort_ascending_Permutation l : sort_ascending l ≡ₚ l.
Proof.
  induction l as [|x l IH]; simpl; [done|].
  by rewrite insert_ascending_Permutation, IH.
Qed.

Lemma insert_ascending_sorted x l :
  ordered_on (x :: l) ->
  StronglySorted rle l -> StronglySorted rle (insert_ascending x l).
Proof.
  induction l as [|y l IH]; simpl; intros Hord Hs.
  { repeat constructor. }
  apply StronglySorted_inv in Hs as [Hs Hy].
  destruct (rleb x y) eqn:E.
  - constructor; [by constructor|]. constructor; [done|].
    rewrite Forall_forall in Hy |- *. intros z Hz.
    apply (ord_trans _ Hord x y z); [set_solver..|done|by apply Hy].
  - constructor.
    + apply IH; [|done]. eapply ordered_on_subseteq; [|exact Hord].
      intros z Hz. rewrite !elem_of_cons in *. tauto.
    + rewrite insert_ascending_Permutation. constructor; [|done].
      destruct (ord_total _ Hord x y) as [Hxy|Hyx]; [set_solver..| |done].
      unfold rle in Hxy. congruence.
Qed.

Lemma sort_ascending_sorted l :
  ordered_on l -> StronglySorted rle (sort_ascending l).
Proof.
  induction l as [|x l IH]; simpl; intros Hord; [constructor|].
  apply insert_ascending_sorted.
  - eapply ordered_on_Permutation; [|done].
    by rewrite sort_ascending_Permutation.
  - apply IH. eapply ordered_on_subseteq; [|done]. set_solver.
Qed.

(** On points that [.LE.] orders there is one ascending arrangement:
    whichever routine sorts them, the result is this one. *)
Lemma ascending_unique l s :
  ordered_on l -> s ≡ₚ l -> StronglySorted rle s -> s = sort_ascending l.
Proof.
  intros Hord Hp Hs. apply (StronglySorted_unique_strong rle); [|done| |].
  - intros x y Hx Hy. apply (ord_antisym _ Hord).
    + by rewrite <- Hp.
    + by rewrite <- (sort_ascending_Permutation l).
  - by apply sort_ascending_sorted.
  - by rewrite sort_ascending_Permutation.
Qed.

Lemma sort_ascending_perm l l' :
  ordered_on l -> l ≡ₚ l' -> sort_ascending l = sort_ascending l'.
Proof.
  intros Hord Hp. symmetry. apply ascending_unique.
  - done.
  - by rewrite sort_ascending_Permutation.
  - apply sort_ascending_sorted. by eapply ordered_on_Permutation.
Qed.

Lemma forallb_perm (f : real -> bool) l l' :
  l ≡ₚ l' -> forallb f l = forallb f l'.
Proof.
  induction 1 as [|x l l' _ IH|x y l|l l' l'' _ IH1 _ IH2]; simpl.
  - done.
  - by rewrite IH.
  - by rewrite !andb_assoc, (andb_comm (f y)).
  - by rewrite IH1.
Qed.

End Sorting.

(** ** The wrapper over the modelled driver *)

Section Modelled_driver_facts.
Context `{RK : RealKind}.
Implicit Types core : engine.
Implicit Types (F : integrand) (A B EPSABS EPSREL : real) (POINTS WORK : list real).
Implicit Types (LENIW LENW : Z) (IWORK : list Z).

Lemma DQAGPE_spec_refuses_accuracy
    core F A B (NPTS2 : Z) POINTS EPSABS EPSREL LIMIT sl WORK IWORK :
  accuracy_request_invalid EPSABS EPSREL = true ->
  DQAGPE_spec core F A B NPTS2 POINTS EPSABS EPSREL LIMIT sl WORK IWORK
  = if NPTS2 <? 2 then invalid_count WORK IWORK
    else invalid_input A B sl WORK IWORK.
Proof.
  intros E. unfold DQAGPE_spec. by rewrite E, orb_true_r.
Qed.

(** C4: a call with [EPSABS <= 0] and
    [EPSREL < max(50*epmach, 0.5D-28)] ends with [IER = 6]; [RESULT],
    [ABSERR], [NEVAL] and [LAST] are zero, and the integration is not
    entered: the run is the same whatever the integration routine is. *)
Theorem C4_accuracy_request_refused
    core F A B (NPTS2 : Z) POINTS EPSABS EPSREL LENIW LENW IWORK WORK :
  rleb EPSABS rzero = true ->
  rltb EPSREL (DMAX1 (rmul r50 epmach) rtiny) = true ->
  let r := DQAGP (DQAGPE_spec core) F A B NPTS2 POINTS EPSABS EPSREL
                 LENIW LENW IWORK WORK in
  IER (out r) = 6 /\ RESULT (out r) = rzero /\ ABSERR (out r) = rzero
  /\ NEVAL (out r) = 0 /\ LAST (out r) = 0
  /\ forall core' : engine,
       DQAGP (DQAGPE_spec core') F A B NPTS2 POINTS EPSABS EPSREL
             LENIW LENW IWORK WORK = r.
Proof.
  intros Habs Hrel r. subst r.
  assert (accuracy_request_invalid EPSABS EPSREL = true) as Hacc.
  { unfold accuracy_request_invalid. by rewrite Habs, Hrel. }
  destruct (dims_invalid LENIW LENW NPTS2) eqn:E.
  - rewrite DQAGP_invalid by done. simpl. repeat split.
    intros core'. by rewrite DQAGP_invalid.
  - rewrite DQAGP_valid by done. cbn [out].
    rewrite DQAGPE_spec_refuses_accuracy by done.
    split; [by destruct (NPTS2 <? 2)|]. split; [by destruct (NPTS2 <? 2)|].
    split; [by destruct (NPTS2 <? 2)|]. split; [by destruct (NPTS2 <? 2)|].
    split; [by destruct (NPTS2 <? 2)|].
    intros core'. rewrite DQAGP_valid by done.
    by rewrite DQAGPE_spec_refuses_accuracy.
Qed.

Lemma DQAGPE_spec_perm
    core F A B (NPTS2 : Z) POINTS POINTS' EPSABS EPSREL LIMIT sl WORK IWORK :
  break_points NPTS2 POINTS ≡ₚ break_points NPTS2 POINTS' ->
  ordered_on (break_points NPTS2 POINTS) ->
  DQAGPE_spec core F A B NPTS2 POINTS EPSABS EPSREL LIMIT sl WORK IWORK
  = DQAGPE_spec core F A B NPTS2 POINTS' EPSABS EPSREL LIMIT sl WORK IWORK.
Proof.
  intros Hp Hord. unfold DQAGPE_spec.
  rewrite (forallb_perm _ _ _ Hp).
  by rewrite (sort_ascending_perm _ _ Hord Hp).
Qed.

(** In every real kind, two calls that differ only in the order of the
    break points, the first [NPTS2-2] elements of [POINTS], give the
    same run when the break points are numbers that [.LE.] orders. *)
Lemma break_point_order_is_irrelevant_if_ordered
    core F A B (NPTS2 : Z) POINTS POINTS' EPSABS EPSREL LENIW LENW IWORK WORK :
  break_points NPTS2 POINTS ≡ₚ break_points NPTS2 POINTS' ->
  ordered_on (break_points NPTS2 POINTS) ->
  DQAGP (DQAGPE_spec core) F A B NPTS2 POINTS EPSABS EPSREL LENIW LENW IWORK WORK
  = DQAGP (DQAGPE_spec core) F A B NPTS2 POINTS' EPSABS EPSREL LENIW LENW IWORK WORK.
Proof.
  intros Hp Hord. unfold DQAGP.
  destruct (dims_invalid LENIW LENW NPTS2); [done|].
  by rewrite (DQAGPE_spec_perm _ _ _ _ _ _ POINTS' _ _ _ _ _ _ Hp Hord).
Qed.

End Modelled_driver_facts.

(** ** mustBeNonnegative *)

Section Validator.
Import Octave.
Implicit Types (x : array spec_float) (v : spec_float) (name : string).

Lemma all_ge_zero x :
  all (colon (ge_zero x)) = true <-> forall v, v ∈ elems x -> nonneg v = true.
Proof.
  unfold all, colon, ge_zero. simpl. rewrite forallb_forall. split.
  - intros H v Hv. apply (H (nonneg v)). apply in_map_iff. exists v.
    split; [done|]. by apply list_elem_of_In.
  - intros H b Hb. apply in_map_iff in Hb as (v & <- & Hv).
    apply H. by apply list_elem_of_In.
Qed.

Lemma raises_iff name x :
  raises (mustBeNonnegative name x) <-> all (colon (ge_zero x)) = false.
Proof.
  unfold mustBeNonnegative. destruct (all (colon (ge_zero x))); simpl.
  - split; [done|discriminate].
  - split; [done|]. intros _. by destruct (index x _).
Qed.

(** The indexes found are those of the elements that fail the test, so
    [x(ix_bad)] succeeds and yields these elements in order. *)
Lemma index_find_not (d : list nat) (pre l : list spec_float) :
  index (mk_array d (pre ++ l)) (find_not (S (length pre)) (map nonneg l))
  = Some (filter (fun v => nonneg v = false) l).
Proof.
  unfold index. revert pre. induction l as [|v l IH]; intros pre; [done|].
  specialize (IH (pre ++ [v])).
  rewrite length_app, Nat.add_1_r, <- app_assoc in IH.
  cbn [map find_not]. destruct (nonneg v) eqn:E.
  - rewrite filter_cons_False by (by rewrite E). exact IH.
  - rewrite filter_cons_True by done. cbn [mapM].
    change ((pre ++ [v]) ++ l) with ((pre ++ [v]) ++ l) in IH.
    simpl in IH. rewrite IH. cbn [element elems].
    by rewrite list_lookup_middle.
Qed.

Lemma find_not_length (i : nat) (l : list spec_float) :
  length (find_not i (map nonneg l))
  = length (filter (fun v => nonneg v = false) l).
Proof.
  revert i. induction l as [|v l IH]; intros i; simpl; [done|].
  destruct (nonneg v) eqn:E.
  - rewrite filter_cons_False; [apply IH|by rewrite E].
  - rewrite filter_cons_True by done. simpl. by rewrite IH.
Qed.

Lemma all_true_no_bad x :
  all (colon (ge_zero x)) = true ->
  filter (fun v => nonneg v = false) (elems x) = [].
Proof.
  rewrite all_ge_zero. intros H.
  destruct (filter _ (elems x)) as [|v bad] eqn:Hbad; [done|].
  assert (v ∈ filter (fun v => nonneg v = false) (elems x)) as Hv.
  { rewrite Hbad. by left. }
  apply list_elem_of_filter in Hv as [Hv1 Hv2].
  rewrite (H v Hv2) in Hv1. discriminate.
Qed.

Lemma all_false_some_bad x :
  all (colon (ge_zero x)) = false ->
  filter (fun v => nonneg v = false) (elems x) <> [].
Proof.
  intros Hall Hbad.
  assert (all (colon (ge_zero x)) = true) as Hall'; [|congruence].
  apply all_ge_zero. intros v Hv. destruct (nonneg v) eqn:E; [done|].
  by apply (filter_nil_not_elem_of _ _ v Hbad) in E.
Qed.

(** What the function does, in one equation: it returns when every
    element passes [x >= 0], and otherwise raises the error that names
    the label, the number of the elements that fail and their values. *)
Lemma mustBeNonnegative_eq name x :
  let bad := filter (fun v => nonneg v = false) (elems x) in
  let label := if String.eqb name EmptyString then "input"%string else name in
  mustBeNonnegative name x
  = match bad with
    | [] => returned
    | _ => raised (not_nonnegative label (length bad) (values bad))
    end.
Proof.
  destruct x as [d l]. intros bad label. cbn [elems] in bad.
  unfold mustBeNonnegative.
  destruct (all (colon (ge_zero (mk_array d l)))) eqn:Hall; cbn [negb].
  - apply all_true_no_bad in Hall. cbn [elems] in Hall.
    subst bad. by rewrite Hall.
  - apply all_false_some_bad in Hall. cbn [elems] in Hall. fold bad in Hall.
    change (elems (colon (ge_zero (mk_array d l)))) with (map nonneg l).
    pose proof (index_find_not d [] l) as Hix. cbn [app length] in Hix.
    rewrite find_not_length, Hix.
    fold bad. fold label. by destruct bad.
Qed.

(** C10: mustBeNonnegative raises an error if and only if some element
    of [x] fails [x >= 0]; so it does for every [x] that holds a NaN,
    although a NaN is not less than zero. *)
Theorem C10_error_iff_some_element_fails_ge_zero name x :
  (raises (mustBeNonnegative name x)
   <-> exists v, v ∈ elems x /\ ge v Binary64.pos_zero = false)
  /\ (Binary64.NaN ∈ elems x -> raises (mustBeNonnegative name x))
  /\ SFltb Binary64.NaN Binary64.pos_zero = false.
Proof.
  assert (raises (mustBeNonnegative name x)
          <-> exists v, v ∈ elems x /\ ge v Binary64.pos_zero = false) as Hiff.
  { rewrite raises_iff. split.
    - intros Hall. apply all_false_some_bad in Hall.
      destruct (filter _ (elems x)) as [|v bad] eqn:Hbad; [done|].
      assert (v ∈ filter (fun v => nonneg v = false) (elems x)) as Hv.
      { rewrite Hbad. by left. }
      apply list_elem_of_filter in Hv as [Hv1 Hv2]. by exists v.
    - intros (v & Hv & Hbad).
      destruct (all (colon (ge_zero x))) eqn:Hall; [|done].
      rewrite all_ge_zero in Hall. specialize (Hall v Hv).
      unfold nonneg in Hall. congruence. }
  split; [exact Hiff|]. split; [|done].
  intros Hnan. apply Hiff. by exists Binary64.NaN.
Qed.

End Validator.

(** * The model at work *)

Section Runs.
Import Binary64.

(** The smallest work arrays for two break points ([NPTS2 = 4],
    [LENIW = 3*4-2 = 10]) leave room for the three initial segments and
    no more. *)
Example minimum_capacity_for_two_break_points :
  dims_invalid 10 16 4 = false /\ LIMIT_of 10 4 = 3.
Proof. split; reflexivity. Qed.

(** Three break points in two orders: the modelled driver hands the
    integration the same ascending sequence. *)
Example sorted_either_way :
  sort_ascending (RK:=binary64) [three_quarters; quarter; half] = [quarter; half; three_quarters]
  /\ sort_ascending (RK:=binary64) [half; three_quarters; quarter] = [quarter; half; three_quarters].
Proof. split; reflexivity. Qed.

(** Doubles that [.LE.] does not order: a zero of each sign, and a NaN. *)
Example signed_zeros_not_ordered : ~ ordered_on (RK:=binary64) [pos_zero; neg_zero].
Proof.
  intros H. pose proof (ord_antisym _ H pos_zero neg_zero) as Ha.
  discriminate Ha; [by left|by right; left|reflexivity..].
Qed.

Example NaN_not_ordered : ~ ordered_on (RK:=binary64) [NaN].
Proof.
  intros H. by destruct (ord_total _ H NaN NaN); [by left|by left|..].
Qed.

Example signed_zeros_keep_their_places :
  sort_ascending (RK:=binary64) [pos_zero; neg_zero] = [pos_zero; neg_zero]
  /\ sort_ascending (RK:=binary64) [neg_zero; pos_zero] = [neg_zero; pos_zero].
Proof. split; reflexivity. Qed.

(** The test block of mustBeNonnegative. *)
Example test_mustBeNonnegative_passes :
  Forall (fun x => Octave.mustBeNonnegative "" x = Octave.returned)
    [Octave.scalar (of_Z 0); Octave.scalar (of_Z 1); Octave.scalar d123_456;
     Octave.scalar Inf; Octave.row (map of_Z [0; 1; 2; 3; 4; 5; 6; 7; 8; 9; 10]);
     Octave.scalar eps].
Proof. repeat constructor. Qed.

Example test_mustBeNonnegative_errors :
  Octave.raises (Octave.call_mustBeNonnegative "" [])
  /\ Forall (fun x => Octave.raises (Octave.call_mustBeNonnegative "" [x]))
       [Octave.scalar (SFopp (of_Z 1));
        Octave.row [of_Z 0; of_Z 1; of_Z 2; of_Z 3; SFopp (of_Z 4)];
        Octave.scalar neg_Inf; Octave.scalar NaN].
Proof. split; [exact I|]. repeat constructor. Qed.

Example mustBeNonnegative_message :
  Octave.mustBeNonnegative ""
    (Octave.row [of_Z 0; of_Z 1; of_Z 2; of_Z 3; SFopp (of_Z 4)])
  = Octave.raised
      (Octave.not_nonnegative "input" 1 (Octave.values [SFopp (of_Z 4)])).
Proof. reflexivity. Qed.

End Runs.

(** ** The theorems at concrete inputs *)

Section Instances.
Import Binary64.

(** Three break points, [LENIW = 13], [LENW = 21]: [LIMIT = 4]. *)
Lemma C2_witness :
  3 * 5 - 2 <= 13 /\ 2 * 13 - 5 <= 21 /\ 2 <= 5
  /\ LIMIT_of 13 5 = 4
  /\ filter (fun ev => is_DQAGPE_call ev = true)
            (calls (call_with_three_break_points points_a))
     = [DQAGPE_called 5 4 (slices_of 4)].
Proof.
  split; [lia|]. split; [lia|]. split; [lia|].
  destruct (C2_limit_is_half_of_spare_iwork (RK:=binary64)
              (DQAGPE_spec first_point_engine) unit_integrand pos_zero one
              5 points_a eps (dyadic 1 20) 13 21
              (replicate 13 0) (replicate 21 pos_zero))
    as (Hlimit & Hcalls & _); [lia..|].
  split; [exact Hlimit|exact Hcalls].
Defined.

Lemma C3_witness : 1 < 2 /\ IER (out call_with_one_point) = 6.
Proof.
  split; [lia|].
  apply (C3_fewer_than_two_points_rejected (RK:=binary64)
           (DQAGPE_spec first_point_engine) unit_integrand pos_zero one
           1 [pos_zero] eps eps 10 20 (replicate 10 0) (replicate 20 pos_zero)).
  lia.
Defined.

Lemma C4_witness :
  rleb pos_zero rzero = true
  /\ rltb eps (DMAX1 (rmul r50 epmach) rtiny) = true
  /\ IER (out call_with_no_tolerance) = 6
  /\ NEVAL (out call_with_no_tolerance) = 0.
Proof.
  split; [reflexivity|]. split; [reflexivity|].
  destruct (C4_accuracy_request_refused (RK:=binary64) first_point_engine
              unit_integrand pos_zero one 2 [pos_zero; pos_zero] pos_zero eps
              4 6 (replicate 4 0) (replicate 6 pos_zero) eq_refl eq_refl)
    as (Hier & _ & _ & Hneval & _).
  split; [exact Hier|exact Hneval].
Defined.

(** [IER = 1] goes to the error handler at level 0, and the estimates of
    the driver are returned. *)
Lemma C8_witness :
  dims_invalid 4 6 2 = false
  /\ XERROR_calls call_that_exhausts_limit
     = [XERROR_called MESSG_DQAGP 26 1 (Some 0)]
  /\ RESULT (out call_that_exhausts_limit) = one
  /\ ABSERR (out call_that_exhausts_limit) = quarter.
Proof.
  destruct (C8_failures_go_to_status_and_error_handler
              (exhausted_driver (RK:=binary64) one quarter 105) unit_integrand
              pos_zero one 2 [pos_zero; pos_zero] eps eps 4 6
              (replicate 4 0) (replicate 6 pos_zero)) as (Hcalls & _ & Hout).
  split; [reflexivity|]. split; [exact Hcalls|].
  unfold call_that_exhausts_limit, sample_call.
  change (replicate (Z.to_nat 4) 0) with (replicate 4 0).
  change (replicate (Z.to_nat 6) pos_zero) with (replicate 6 pos_zero).
  rewrite (Hout eq_refl). split; reflexivity.
Defined.

(** C8 as stated fails: a call with [NPTS2 = 1] is refused with
    [IER = 6], and the refusal is also handed to the error handler, at
    level 1. *)
Lemma C8_counterexample :
  IER (out call_with_one_point) = 6
  /\ calls call_with_one_point = [XERROR_called MESSG_DQAGP 26 6 (Some 1)]
  /\ ~ reported_by_status_only call_with_one_point.
Proof.
  split; [reflexivity|]. split; [reflexivity|].
  intros H. inversion H as [|? ? Hx _]. discriminate Hx.
Qed.

Lemma C9_witness : 3 * 5 - 2 <= 13 /\ 2 <= 5 /\ 5 - 1 <= LIMIT_of 13 5.
Proof.
  split; [lia|]. split; [lia|].
  apply (C9_limit_covers_initial_segments 13 5); lia.
Defined.

Lemma C10_witness :
  NaN ∈ Octave.elems (Octave.row [of_Z 0; NaN])
  /\ Octave.raises (Octave.mustBeNonnegative "x" (Octave.row [of_Z 0; NaN])).
Proof.
  assert (NaN ∈ Octave.elems (Octave.row [of_Z 0; NaN])) as Hin.
  { right. left. }
  split; [exact Hin|].
  apply (C10_error_iff_some_element_fails_ge_zero "x"
           (Octave.row [of_Z 0; NaN])).
  exact Hin.
Defined.

End Instances.

(** * Further properties of the code *)

(** ** DQAGP: the work arrays *)

Section Layout_facts.
Import Layout.
Implicit Types LENIW LENW : Z.

Lemma LIMIT_of_bounds LENIW (NPTS2 : Z) :
  NPTS2 <= LENIW ->
  2 * LIMIT_of LENIW NPTS2 <= LENIW - NPTS2 < 2 * LIMIT_of LENIW NPTS2 + 2.
Proof.
  intros H. rewrite LIMIT_of_floor by done.
  pose proof (Z.div_mod (LENIW - NPTS2) 2 ltac:(lia)) as Hdm.
  pose proof (Z.mod_pos_bound (LENIW - NPTS2) 2 ltac:(lia)). lia.
Qed.


(** X2: [LIMIT] is the largest number of subintervals for which the
    three sub-arrays of [IWORK] fit into [LENIW] elements. *)
Theorem X2_LIMIT_is_the_largest_that_fits LENIW (NPTS2 n : Z) :
  3 * NPTS2 - 2 <= LENIW -> 2 <= NPTS2 ->
  packed_from 1 (IWORK_layout (slices_of n) n NPTS2) LENIW ->
  n <= LIMIT_of LENIW NPTS2.
Proof.
  intros H1 H2 Hfit.
  pose proof (LIMIT_of_bounds LENIW NPTS2 ltac:(lia)) as Hb.
  simpl in Hfit. lia.
Qed.

(** X3: on a processor with 32-bit INTEGERs, if the arguments fit, the
    expressions of the dimension check do not overflow and the check
    passes, then nothing that DQAGP computes afterwards overflows:
    [LIMIT] and [L1], ..., [L4] have the values they have in [Z]. *)
Theorem X3_no_overflow_after_the_check LENIW LENW (NPTS2 : Z) :
  Fortran.int32 LENIW -> Fortran.int32 LENW -> Fortran.int32 NPTS2 ->
  Fortran.int32 (3 * NPTS2) -> Fortran.int32 (3 * NPTS2 - 2) ->
  Fortran.int32 (LENIW * 2) -> Fortran.int32 (LENIW * 2 - NPTS2) ->
  dims_invalid32 LENIW LENW NPTS2 = false ->
  dims_invalid LENIW LENW NPTS2 = false
  /\ LIMIT32_of LENIW NPTS2 = LIMIT_of LENIW NPTS2
  /\ slices32_of (LIMIT32_of LENIW NPTS2) = slices_of (LIMIT_of LENIW NPTS2).
Proof.
  unfold Fortran.int32. intros Hi Hw Hn H3n H3n2 H2i H2in Hchk.
  assert (dims_invalid LENIW LENW NPTS2 = false) as Hz.
  { rewrite <- Hchk. unfold dims_invalid32, dims_invalid.
    by rewrite !wrap32_small by (rewrite ?wrap32_small; lia). }
  apply dims_invalid_false in Hz as Hv. destruct Hv as (H1 & H2 & H3).
  pose proof (LIMIT_of_bounds LENIW NPTS2 ltac:(lia)) as Hb.
  assert (LIMIT32_of LENIW NPTS2 = LIMIT_of LENIW NPTS2) as Hl.
  { unfold LIMIT32_of, LIMIT_of. by rewrite wrap32_small by lia. }
  split; [done|]. split; [done|]. rewrite Hl.
  unfold slices32_of, slices_of.
  by rewrite !wrap32_small by (rewrite ?wrap32_small; lia).
Qed.

End Layout_facts.

(** ** mustBeNonnegative: which elements fail *)

Section Validator_facts.
Import Octave.
Implicit Types (x y : array spec_float) (v : spec_float) (name : string).

Lemma nonneg_false v :
  nonneg v = false <-> v = Binary64.NaN \/ SFltb v Binary64.pos_zero = true.
Proof.
  unfold nonneg, ge, Binary64.NaN, Binary64.pos_zero.
  destruct v as [s|s| |s m e]; try destruct s; simpl;
    split; intros H; try discriminate; try done; try (by left); try (by right);
    destruct H as [H|H]; discriminate.
Qed.

Lemma raises_exists name x :
  raises (mustBeNonnegative name x)
  <-> exists v, v ∈ elems x /\ nonneg v = false.
Proof.
  rewrite raises_iff. split.
  - intros Hall. apply all_false_some_bad in Hall.
    destruct (filter _ (elems x)) as [|v bad] eqn:Hbad; [done|].
    assert (v ∈ filter (fun v => nonneg v = false) (elems x)) as Hv.
    { rewrite Hbad. by left. }
    apply list_elem_of_filter in Hv as [Hv1 Hv2]. by exists v.
  - intros (v & Hv & Hbad).
    destruct (all (colon (ge_zero x))) eqn:Hall; [|done].
    rewrite all_ge_zero in Hall. specialize (Hall v Hv). congruence.
Qed.

(** X5: mustBeNonnegative raises an error exactly when some element is
    a NaN or is less than zero; zeros of either sign, positive numbers
    and [Inf] pass. *)
Theorem X5_raises_iff_NaN_or_negative name x :
  raises (mustBeNonnegative name x)
  <-> exists v, v ∈ elems x
                /\ (v = Binary64.NaN \/ SFltb v Binary64.pos_zero = true).
Proof.
  rewrite raises_exists. by setoid_rewrite nonneg_false.
Qed.

(** X6: whether mustBeNonnegative raises depends on the elements only,
    not on the shape of the array, their order or the name of the
    variable; and an array put together from two parts raises exactly
    when one of the parts does. *)
Theorem X6_raises_by_elements name name' (d d1 d2 : list nat)
    (l l1 l2 : list spec_float) x :
  (elems x ≡ₚ l ->
   (raises (mustBeNonnegative name x)
    <-> raises (mustBeNonnegative name' (mk_array d l))))
  /\ (raises (mustBeNonnegative name (mk_array d (l1 ++ l2)))
      <-> raises (mustBeNonnegative name (mk_array d1 l1))
          \/ raises (mustBeNonnegative name (mk_array d2 l2))).
Proof.
  split.
  - intros Hp. rewrite !raises_exists. cbn [elems].
    by setoid_rewrite Hp.
  - rewrite !raises_exists. cbn [elems]. setoid_rewrite elem_of_app. split.
    + intros (v & [Hv|Hv] & Hb); [left|right]; by exists v.
    + intros [(v & Hv & Hb)|(v & Hv & Hb)]; exists v; auto.
Qed.

End Validator_facts.

(** ** The GUI object *)

Section Gui_facts.
Import Gui.
Variable cfg : build.
Implicit Types (s : base_qobject) (ms : list method) (t : list call).

Lemma block_cons (a : action) (body : list action) s :
  block (a :: body) s
  = (fst (block body (fst (a s))), snd (a s) ++ snd (block body (fst (a s)))).
Proof.
  unfold block. simpl. unfold seq at 1.
  destruct (a s) as [s1 t1]. simpl. by destruct (foldr seq skip body s1).
Qed.

Lemma installs_app t t' : installs (t ++ t') = installs t ++ installs t'.
Proof. apply filter_app. Qed.

Lemma config_translators_first s :
  m_translators_installed s = false ->
  config_translators s
  = (mk_base_qobject true,
     [resource_manager_config_translators m_qt_tr m_qsci_tr m_gui_tr;
      installTranslator m_qt_tr; installTranslator m_gui_tr;
      installTranslator m_qsci_tr]).
Proof. intros E. unfold config_translators. by rewrite E. Qed.

Lemma config_translators_again s :
  m_translators_installed s = true -> config_translators s = (s, []).
Proof. intros E. unfold config_translators. by rewrite E. Qed.

(** X7: on an object whose translators are not installed,
    config_translators has the resource manager configure the three
    translators, installs Qt's, then the GUI's, then QScintilla's, makes
    no other call and sets the flag; on an object whose translators are
    installed it makes no call and changes nothing.  So two calls in a
    row are one. *)
Theorem X7_config_translators_once s :
  seq config_translators config_translators s = config_translators s
  /\ config_translators s
     = if m_translators_installed s then (s, [])
       else (mk_base_qobject true,
             [resource_manager_config_translators m_qt_tr m_qsci_tr m_gui_tr;
              installTranslator m_qt_tr; installTranslator m_gui_tr;
              installTranslator m_qsci_tr]).
Proof.
  unfold seq. destruct (m_translators_installed s) eqn:E.
  - rewrite (config_translators_again s E).
    rewrite (config_translators_again s E). done.
  - rewrite (config_translators_first s E).
    rewrite config_translators_again by done. done.
Qed.

Lemma invoke_other (m : method) s :
  is_config_translators m = false ->
  fst (invoke cfg m s) = s /\ installs (snd (invoke cfg m s)) = [].
Proof.
  destruct m; simpl; try discriminate; intros _; try done.
  unfold handle_octave_finished. by destruct (Q_OS_MAC cfg).
Qed.

Lemma invoke_all_cons (m : method) ms s :
  invoke_all cfg (m :: ms) s
  = (fst (invoke_all cfg ms (fst (invoke cfg m s))),
     snd (invoke cfg m s) ++ snd (invoke_all cfg ms (fst (invoke cfg m s)))).
Proof. unfold invoke_all. simpl. apply block_cons. Qed.

Lemma invoke_all_installed ms s :
  m_translators_installed s = true ->
  installs (snd (invoke_all cfg ms s)) = [].
Proof.
  revert s. induction ms as [|m ms IH]; intros s E; [done|].
  rewrite invoke_all_cons. cbn [snd]. rewrite installs_app.
  destruct (is_config_translators m) eqn:Hm.
  - destruct m; try discriminate. simpl.
    rewrite (config_translators_again s E). simpl. by apply IH.
  - destruct (invoke_other m s Hm) as [-> ->]. simpl. by apply IH.
Qed.

(** X8: whatever methods and slots are invoked on the object, in any
    number and order, each translator is installed at most once: the
    three are installed, in the order Qt, GUI, QScintilla, if
    config_translators is among the calls and the translators were not
    installed before, and no translator is installed otherwise. *)
Theorem X8_translators_installed_at_most_once ms s :
  installs (snd (invoke_all cfg ms s))
  = if negb (m_translators_installed s)
       && existsb is_config_translators ms
    then [installTranslator m_qt_tr; installTranslator m_gui_tr;
          installTranslator m_qsci_tr]
    else [].
Proof.
  destruct (m_translators_installed s) eqn:E; simpl.
  { by apply invoke_all_installed. }
  revert s E. induction ms as [|m ms IH]; intros s E; [done|].
  rewrite invoke_all_cons. cbn [snd existsb]. rewrite installs_app.
  destruct (is_config_translators m) eqn:Hm.
  - destruct m; try discriminate. simpl.
    rewrite (config_translators_first s E). simpl.
    by rewrite invoke_all_installed.
  - destruct (invoke_other m s Hm) as [-> ->]. simpl. by apply IH.
Qed.

Lemma base_qobject_ctor_fresh (OCTAVE_VERSION show_gui_msgs : string) :
  let made := base_qobject_ctor cfg OCTAVE_VERSION show_gui_msgs in
  fst made = mk_base_qobject false /\ installs (snd made) = [].
Proof.
  unfold base_qobject_ctor.
  by destruct (String.eqb show_gui_msgs EmptyString),
    (HAVE_QINSTALLMESSAGEHANDLER cfg), (Q_OS_WIN32 cfg), (HAVE_QT4 cfg),
    (Q_OS_MAC cfg).
Qed.

(** X9: an object made by the constructor of cli_qobject has its
    translators installed: the constructor installs the three, after it
    has reloaded the settings, and whatever is invoked on the object
    afterwards installs none. *)
Theorem X9_cli_qobject_installs_translators
    (OCTAVE_VERSION show_gui_msgs : string) ms :
  let made := cli_qobject_ctor cfg OCTAVE_VERSION show_gui_msgs in
  m_translators_installed (fst made) = true
  /\ installs (snd made)
     = [installTranslator m_qt_tr; installTranslator m_gui_tr;
        installTranslator m_qsci_tr]
  /\ (exists before after,
        snd made = before ++ resource_manager_reload_settings
                   :: resource_manager_config_translators m_qt_tr m_qsci_tr m_gui_tr
                   :: after
        /\ installs before = [])
  /\ installs (snd (invoke_all cfg ms (fst made))) = [].
Proof.
  intros made. subst made. unfold cli_qobject_ctor.
  destruct (base_qobject_ctor_fresh OCTAVE_VERSION show_gui_msgs) as [Hs Ht].
  destruct (base_qobject_ctor cfg OCTAVE_VERSION show_gui_msgs) as [s before].
  simpl in Hs, Ht. subst s. cbn. split; [done|]. split.
  { rewrite installs_app, Ht. done. }
  split.
  { exists before. eexists. split; [reflexivity|done]. }
  by apply invoke_all_installed.
Qed.

End Gui_facts.

Section Clipboard_facts.
Import Gui.
Context {image data : Type} (decode : data -> option image)
        (removable : string -> bool).
Implicit Types (w : desktop (image:=image) (data:=data)) (file : string).

(** X10: copy_image_to_clipboard puts the image of the file on the
    clipboard when the file can be read as an image, and leaves the
    clipboard alone when it cannot.  It creates no file and touches no
    other file; the file itself is removed only if it was read as an
    image, its removal was asked for and succeeds, so a file that cannot
    be read stays where it is whatever [remove_file] says. *)
Theorem X10_copy_image_to_clipboard file (remove_file : bool) w :
  let w' := copy_image_to_clipboard decode removable file remove_file w in
  clipboard w' = match QImage_of decode w file with
                 | Some img => Some img
                 | None => clipboard w
                 end
  /\ (QImage_of decode w file = None -> w' = w)
  /\ (forall other, other <> file -> files w' !! other = files w !! other)
  /\ files w' ⊆ files w
  /\ files w' !! file
     = if remove_file && removable file
       then match QImage_of decode w file with
            | Some _ => None
            | None => files w !! file
            end
       else files w !! file.
Proof.
  intros w'. subst w'. unfold copy_image_to_clipboard, QFile_remove.
  destruct (QImage_of decode w file) as [img|] eqn:Himg.
  - destruct remove_file, (removable file); simpl;
      repeat split; try done; try apply delete_subseteq.
    + intros other Hne. by apply lookup_delete_ne.
    + apply lookup_delete_eq.
  - repeat split; try done. by destruct (remove_file && removable file).
Qed.

End Clipboard_facts.

Section Notify_facts.
Import Gui.
Context {QObject QEvent : Type}
        (QApplication_notify : QObject -> QEvent -> outcome bool).

(** X11: notify lets no execution_exception of Octave out.  When the
    delivery of an event throws one, notify returns false and emits one
    interpreter event, a callback that throws that same exception when
    the interpreter runs it; in every other case notify returns or
    throws what the delivery returned or threw, and emits nothing. *)
Theorem X11_notify_forwards_execution_exceptions
    (receiver : QObject) (ev : QEvent) :
  let r := notify QApplication_notify receiver ev in
  (forall ee, fst r <> throws (execution_exception ee))
  /\ (forall ee,
        QApplication_notify receiver ev = throws (execution_exception ee) ->
        fst r = returns false
        /\ exists fcn, snd r = [fcn]
                       /\ forall u, fcn u = throws (execution_exception ee))
  /\ ((forall ee,
         QApplication_notify receiver ev <> throws (execution_exception ee)) ->
      r = (QApplication_notify receiver ev, [])).
Proof.
  intros r. subst r. unfold notify.
  destruct (QApplication_notify receiver ev) as [b|[ee|what]]; simpl.
  - split; [done|]. split; [done|]. done.
  - split; [done|]. split.
    + intros ee' [= <-]. split; [done|]. by eexists.
    + intros H. by destruct (H ee).
  - split; [done|]. split; [done|]. done.
Qed.

End Notify_facts.

(** ** mustBeNonnegative: what the error tells *)

Section Validator_report.
Import Octave.
Implicit Types (x : array spec_float) (name : string).

(** X4: when mustBeNonnegative raises its error, the error names the
    variable ("input" when it has no name), and gives the elements that
    fail [x >= 0], in the order of the array, and their number, which is
    at least one and at most the number of elements; the branch that
    reports indexes instead of values is never taken. *)
Theorem X4_error_reports_the_failing_elements name x (e : exception) :
  mustBeNonnegative name x = raised e ->
  let bad := filter (fun v => nonneg v = false) (elems x) in
  e = not_nonnegative (if String.eqb name EmptyString then "input"%string else name)
                      (length bad) (values bad)
  /\ (1 <= length bad <= length (elems x))%nat.
Proof.
  intros He bad. rewrite mustBeNonnegative_eq in He. cbv zeta in He. fold bad in He.
  pose proof (length_filter (fun v => nonneg v = false) (elems x)) as Hle.
  fold bad in Hle.
  destruct bad as [|v bad']; [discriminate|].
  injection He as <-. split; [done|]. simpl in *. lia.
Qed.

End Validator_report.

(** ** The further properties at concrete inputs *)

Section Further_instances.
Import Binary64 Layout.


Lemma X2_witness :
  3 * 5 - 2 <= 13 /\ 2 <= 5
  /\ packed_from 1 (IWORK_layout (slices_of 3) 3 5) 13
  /\ 3 <= LIMIT_of 13 5.
Proof.
  assert (packed_from 1 (IWORK_layout (slices_of 3) 3 5) 13) as Hfit.
  { simpl. lia. }
  split; [lia|]. split; [lia|]. split; [exact Hfit|].
  apply (X2_LIMIT_is_the_largest_that_fits 13 5 3); [lia|lia|exact Hfit].
Defined.

Lemma X3_witness :
  Fortran.int32 13 /\ Fortran.int32 21 /\ Fortran.int32 5
  /\ dims_invalid32 13 21 5 = false
  /\ LIMIT32_of 13 5 = LIMIT_of 13 5
  /\ slices32_of (LIMIT32_of 13 5) = slices_of (LIMIT_of 13 5).
Proof.
  assert (forall z, - 100 <= z <= 100 -> Fortran.int32 z) as Hsmall.
  { unfold Fortran.int32. lia. }
  split; [apply Hsmall; lia|]. split; [apply Hsmall; lia|].
  split; [apply Hsmall; lia|]. split; [reflexivity|].
  apply (X3_no_overflow_after_the_check 13 21 5);
    try (apply Hsmall; lia). reflexivity.
Defined.

Lemma X4_witness :
  Octave.mustBeNonnegative "x" (Octave.row [of_Z 1; NaN; SFopp (of_Z 4)])
  = Octave.raised
      (Octave.not_nonnegative "x" 2 (Octave.values [NaN; SFopp (of_Z 4)]))
  /\ (1 <= length (filter (fun v => Octave.nonneg v = false)
                          [of_Z 1; NaN; SFopp (of_Z 4)]) <= 3)%nat.
Proof.
  split; [reflexivity|].
  apply (X4_error_reports_the_failing_elements "x"
           (Octave.row [of_Z 1; NaN; SFopp (of_Z 4)])
           (Octave.not_nonnegative "x" 2 (Octave.values [NaN; SFopp (of_Z 4)]))).
  reflexivity.
Defined.

Lemma X6_witness :
  [of_Z 1; SFopp (of_Z 4)] ≡ₚ [SFopp (of_Z 4); of_Z 1]
  /\ (Octave.raises
        (Octave.mustBeNonnegative "x" (Octave.row [of_Z 1; SFopp (of_Z 4)]))
      <-> Octave.raises
            (Octave.mustBeNonnegative ""
               (Octave.mk_array [2%nat; 1%nat] [SFopp (of_Z 4); of_Z 1]))).
Proof.
  assert ([of_Z 1; SFopp (of_Z 4)] ≡ₚ [SFopp (of_Z 4); of_Z 1]) as Hp.
  { apply Permutation_swap. }
  split; [exact Hp|].
  apply (X6_raises_by_elements "x" "" [2%nat; 1%nat] [] [] _ [] []
           (Octave.row [of_Z 1; SFopp (of_Z 4)])).
  exact Hp.
Defined.

Lemma X10_witness :
  Gui.QImage_of Gui.sample_decode Gui.sample_desktop "empty.png" = None
  /\ Gui.copy_image_to_clipboard Gui.sample_decode (fun _ => true)
       "empty.png" true Gui.sample_desktop
     = Gui.sample_desktop.
Proof.
  assert (Gui.QImage_of Gui.sample_decode Gui.sample_desktop "empty.png" = None)
    as Hnull.
  { vm_compute. reflexivity. }
  split; [exact Hnull|].
  apply (X10_copy_image_to_clipboard Gui.sample_decode (fun _ => true)
           "empty.png" true Gui.sample_desktop).
  exact Hnull.
Defined.

Lemma X11_witness :
  Gui.failing_delivery tt tt
  = Gui.throws (Gui.execution_exception "error: x undefined")
  /\ fst (Gui.notify Gui.failing_delivery tt tt) = Gui.returns false.
Proof.
  split; [reflexivity|].
  destruct (X11_notify_forwards_execution_exceptions Gui.failing_delivery tt tt)
    as (_ & Hcaught & _).
  apply (Hcaught "error: x undefined"). reflexivity.
Defined.

End Further_instances.

(** * DQAGP with 32-bit INTEGERs *)

Section Wrapper32_facts.
Import Layout Quadpack32.
Context `{RK : RealKind} (DQAGPE : driver).
Implicit Types (F : integrand) (A B EPSABS EPSREL : real) (POINTS WORK : list real).
Implicit Types (LENIW LENW : Z) (IWORK : list Z).

Lemma wrap32_sub (a b : Z) :
  Fortran.wrap32 (Fortran.wrap32 a - b) = Fortran.wrap32 (a - b).
Proof.
  unfold Fortran.wrap32. f_equal.
  replace ((a + 2 ^ 31) `mod` 2 ^ 32 - 2 ^ 31 - b + 2 ^ 31)
    with ((a + 2 ^ 31) `mod` 2 ^ 32 - b) by lia.
  rewrite Zminus_mod_idemp_l. f_equal. lia.
Qed.

(** Dimensions that fit 32 bits and pass the check with the expressions
    at their mathematical values pass it in 32 bits too, and [LIMIT] and
    the sub-arrays are the same: the values that the two tests compare
    lie below [LENIW] and [LENW]. *)
Lemma valid_dimensions_in_32_bits LENIW LENW (NPTS2 : Z) :
  Fortran.int32 LENIW -> Fortran.int32 LENW -> Fortran.int32 NPTS2 ->
  dims_invalid LENIW LENW NPTS2 = false ->
  dims_invalid32 LENIW LENW NPTS2 = false
  /\ LIMIT32_of LENIW NPTS2 = LIMIT_of LENIW NPTS2
  /\ slices32_of (LIMIT32_of LENIW NPTS2) = slices_of (LIMIT_of LENIW NPTS2).
Proof.
  unfold Fortran.int32. intros Hi Hw Hn Hz.
  apply dims_invalid_false in Hz as (H1 & H2 & H3).
  pose proof (LIMIT_of_bounds LENIW NPTS2 ltac:(lia)) as Hb.
  assert (LIMIT32_of LENIW NPTS2 = LIMIT_of LENIW NPTS2) as Hl.
  { unfold LIMIT32_of, LIMIT_of. by rewrite wrap32_small by lia. }
  split; [|split; [done|]].
  - unfold dims_invalid32. rewrite !wrap32_sub.
    rewrite !wrap32_small by lia.
    rewrite !orb_false_iff, !Z.ltb_ge. lia.
  - rewrite Hl. unfold slices32_of, slices_of.
    by rewrite !wrap32_small by (rewrite ?wrap32_small; lia).
Qed.

(** So a call that passes the check in [Z] runs in 32 bits as it runs
    in [Z]. *)
Lemma DQAGP32_on_valid_dimensions
    F A B (NPTS2 : Z) POINTS EPSABS EPSREL LENIW LENW IWORK WORK :
  Fortran.int32 LENIW -> Fortran.int32 LENW -> Fortran.int32 NPTS2 ->
  dims_invalid LENIW LENW NPTS2 = false ->
  DQAGP32 DQAGPE F A B NPTS2 POINTS EPSABS EPSREL LENIW LENW IWORK WORK
  = DQAGP DQAGPE F A B NPTS2 POINTS EPSABS EPSREL LENIW LENW IWORK WORK.
Proof.
  intros Hi Hw Hn Hz.
  destruct (valid_dimensions_in_32_bits LENIW LENW NPTS2 Hi Hw Hn Hz)
    as (H32 & Hl & Hs).
  unfold DQAGP32, DQAGP. rewrite H32, Hz. cbv zeta. by rewrite Hs, Hl.
Qed.

(** Where the expressions of the check do not overflow, dimensions that
    fail one of the three tests are rejected in 32 bits as well:
    [IER = 6], zero outputs, and no call of DQAGPE. *)
Lemma DQAGP32_bad_dimensions_rejected_without_overflow
    F A B (NPTS2 : Z) POINTS EPSABS EPSREL LENIW LENW IWORK WORK :
  Fortran.int32 (3 * NPTS2) -> Fortran.int32 (3 * NPTS2 - 2) ->
  Fortran.int32 (LENIW * 2) -> Fortran.int32 (LENIW * 2 - NPTS2) ->
  LENIW < 3 * NPTS2 - 2 \/ LENW < 2 * LENIW - NPTS2 \/ NPTS2 < 2 ->
  DQAGP32 DQAGPE F A B NPTS2 POINTS EPSABS EPSREL LENIW LENW IWORK WORK
  = mk_run (mk_outputs rzero rzero 0 6 0 WORK IWORK)
           [XERROR_called MESSG_DQAGP 26 6 (Some 1)].
Proof.
  unfold Fortran.int32. intros H3n H3n2 H2i H2in Hbad.
  assert (dims_invalid32 LENIW LENW NPTS2 = true) as H32.
  { unfold dims_invalid32. rewrite !wrap32_small by (rewrite ?wrap32_small; lia).
    rewrite !orb_true_iff, !Z.ltb_lt. lia. }
  unfold DQAGP32. by rewrite H32.
Qed.

(** C1: the claim fails where the test on [LENW] overflows.  With
    [LENIW = 1073741825], [LENW = 10] and [NPTS2 = 2], all 32-bit
    values, [LENW < 2*LENIW-NPTS2] holds; but [LENIW*2] wraps around to
    [-2147483646] and [LENIW*2-NPTS2] to [-2147483648], so no test
    rejects: DQAGP calls DQAGPE, with [LIMIT = 536870911] on a [WORK] of
    10 elements, and returns what the driver returns. *)
Theorem C1_check_passes_when_the_test_overflows
    F A B POINTS EPSABS EPSREL IWORK WORK :
  let r := DQAGP32 DQAGPE F A B 2 POINTS EPSABS EPSREL 1073741825 10
                   IWORK WORK in
  let LIMIT := 536870911 in
  (Fortran.int32 1073741825 /\ Fortran.int32 10 /\ Fortran.int32 2)
  /\ 10 < 2 * 1073741825 - 2
  /\ Fortran.wrap32 (Fortran.wrap32 (1073741825 * 2) - 2) = - 2147483648
  /\ head (calls r) = Some (DQAGPE_called 2 LIMIT (slices_of LIMIT))
  /\ ~ Forall (fun ev => is_DQAGPE_call ev = false) (calls r)
  /\ out r = DQAGPE F A B 2 POINTS EPSABS EPSREL LIMIT (slices_of LIMIT)
                    WORK IWORK.
Proof.
  intros r LIMIT. subst r LIMIT. unfold Fortran.int32.
  split; [lia|]. split; [lia|]. split; [reflexivity|].
  unfold DQAGP32.
  replace (dims_invalid32 1073741825 10 2) with false by reflexivity.
  replace (LIMIT32_of 1073741825 2) with 536870911 by reflexivity.
  replace (slices32_of 536870911) with (slices_of 536870911) by reflexivity.
  cbv zeta. cbn [out calls head]. split; [done|]. split; [|done].
  intros H. inversion H as [|? ? Hx _]. discriminate Hx.
Qed.

End Wrapper32_facts.

(** A driver that reports [IER = 1] shows the status that comes back in
    place of 6. *)
Example overflowing_check_returns_the_status_of_the_driver :
  IER (out (Quadpack32.DQAGP32
              (exhausted_driver (RK:=binary64) Binary64.one Binary64.quarter 105)
              unit_integrand Binary64.pos_zero Binary64.one 2
              [Binary64.pos_zero; Binary64.pos_zero] Binary64.eps Binary64.eps
              1073741825 10 [] [])) = 1.
Proof. reflexivity. Qed.

(** * The order of doubles and the break points *)

Section Doubles_facts.
Import Binary64 Doubles.
Implicit Types (x y z : spec_float) (l : list spec_float).







End Doubles_facts.

Section Doubles_instances.
Import Binary64 Doubles.



End Doubles_instances.
